(** * Primitive roots of unity of the Goldilocks field (package [field])

    A shallow embedding of the primitive-root registry of titan-crypt
    (the Go file that declares [PrimitiveRoots], [GetPrimitiveRoot],
    [PrimitiveRootOfUnity], [IsPrimitiveRootOfUnity],
    [GeneratePrimitiveRoot], [GetInversePrimitiveRoot],
    [GetNthRootOfUnity] and [GetInverseNthRootOfUnity]) and the proofs of
    its properties.

    Go's [uint64] is modelled as [Z] with the wrap-around written out,
    the map [map[uint64]uint64] as a [gmap Z Z], a Go result pair
    [(Element, error)] as a pair [Element * option error]. *)

From Stdlib Require Import ZArith Lia.
From stdpp Require Import base option list gmap fin_maps.

Local Open Scope Z_scope.

(** ** Machine integers *)

Module U64.

Definition modulus : Z := 2 ^ 64.

(** The values a Go [uint64] can hold. *)
Definition in_range (x : Z) : Prop := 0 <= x < modulus.

Definition wrap (x : Z) : Z := x mod modulus.

(** [a - b] on [uint64]. *)
Definition sub (a b : Z) : Z := wrap (a - b).

(** [a & b] on [uint64]. *)
Definition and (a b : Z) : Z := Z.land a b.

(** [a / b] on [uint64], for a non-zero constant divisor. *)
Definition div (a b : Z) : Z := a / b.

End U64.

(** ** The base field *)

Module Field.

(** The Goldilocks prime [p = 2^64 - 2^32 + 1]. *)
Definition P : Z := 2 ^ 64 - 2 ^ 32 + 1.

(** Modelled from the spec: the type [Element] of the base field is
    declared in a file of package [field] that is not part of the
    sources at hand.  The spec describes it as a residue class modulo
    [p] whose observable value is the canonical representative in
    [[0, p)]; the record holds that representative. *)
Record Element : Type := mkElement { value : Z }.

Definition canonical (e : Element) : Prop := 0 <= value e < P.

(** Modelled from the spec: [Zero] and [One], the additive and the
    multiplicative identity. *)
Definition Zero : Element := mkElement 0.
Definition One : Element := mkElement 1.

(** Modelled from the spec: [NewFromRaw], construction from a raw 64-bit
    integer, "maps any 64-bit unsigned integer to its residue mod p;
    always succeeds". *)
Definition NewFromRaw (raw : Z) : Element := mkElement (raw mod P).

(** Modelled from the spec: [Mul], exact modular multiplication of the
    full double-width product. *)
Definition Mul (a b : Element) : Element :=
  mkElement ((value a * value b) mod P).

(** Modelled from the spec: [Equal], equality on canonical
    representatives. *)
Definition Equal (a b : Element) : bool := value a =? value b.

(** Modelled from the spec: [Pow], "modular exponentiation by repeated
    squaring": the loop keeps a running [result] and a [base] that is
    squared once per bit of the exponent, lowest bit first. *)
Fixpoint pow_loop (result base : Element) (exp : positive) : Element :=
  match exp with
  | xH => Mul result base
  | xO q => pow_loop result (Mul base base) q
  | xI q => pow_loop (Mul result base) (Mul base base) q
  end.

Definition Pow (a : Element) (e : Z) : Element :=
  match e with
  | Zpos q => pow_loop One a q
  | _ => One
  end.

(** Modelled from the spec: [ModPow], "alias/specialization of Pow used
    by root-of-unity validation". *)
Definition ModPow (a : Element) (n : Z) : Element := Pow a n.

(** Modelled from the spec: [Inverse], the multiplicative inverse "via
    exponentiation to p-2", which "fails (signals a domain error) when
    called on the Zero element".  The Go method has a single result, so
    the failure is not an [error] value: [None] stands for it. *)
Definition Inverse (a : Element) : option Element :=
  if Equal a Zero then None else Some (Pow a (P - 2)).

End Field.

Import Field.

(** ** The registry *)

(** The literal of the map [PrimitiveRoots], in source order. *)
Definition PrimitiveRoots_entries : list (Z * Z) :=
  [ (0,          1);
    (1,          1);
    (2,          18446744069414584320);
    (4,          281474976710656);
    (8,          18446744069397807105);
    (16,         17293822564807737345);
    (32,         70368744161280);
    (64,         549755813888);
    (128,        17870292113338400769);
    (256,        13797081185216407910);
    (512,        1803076106186727246);
    (1024,       11353340290879379826);
    (2048,       455906449640507599);
    (4096,       17492915097719143606);
    (8192,       1532612707718625687);
    (16384,      16207902636198568418);
    (32768,      17776499369601055404);
    (65536,      6115771955107415310);
    (131072,     12380578893860276750);
    (262144,     9306717745644682924);
    (524288,     18146160046829613826);
    (1048576,    3511170319078647661);
    (2097152,    17654865857378133588);
    (4194304,    5416168637041100469);
    (8388608,    16905767614792059275);
    (16777216,   9713644485405565297);
    (33554432,   5456943929260765144);
    (67108864,   17096174751763063430);
    (134217728,  1213594585890690845);
    (268435456,  6414415596519834757);
    (536870912,  16116352524544190054);
    (1073741824, 9123114210336311365);
    (2147483648, 4614640910117430873);
    (4294967296, 1753635133440165772) ].

(** [var PrimitiveRoots = map[uint64]uint64{...}]. *)
Definition PrimitiveRoots : gmap Z Z := list_to_map PrimitiveRoots_entries.

(** The errors the registry builds with [fmt.Errorf], one constructor per
    format string; the argument is the order printed by [%d]. *)
Inductive error : Type :=
| ErrOrderZero                       (* "order cannot be zero" *)
| ErrNotPowerOfTwo (order : Z)       (* "order must be a power of 2, got %d" *)
| ErrRootNotFound (order : Z)        (* "primitive root not found for order %d" *)
| ErrNotImplemented (order : Z)      (* "primitive root generation not implemented for order %d" *)
| ErrNNotLessThanOrder.              (* "n must be less than order" *)

(** The three kinds of the spec's error taxonomy. *)
Inductive error_kind : Type := DomainError | RangeError | NotFoundError.

Definition kind_of (e : error) : error_kind :=
  match e with
  | ErrOrderZero => DomainError
  | ErrNotPowerOfTwo _ => DomainError
  | ErrRootNotFound _ => NotFoundError
  | ErrNotImplemented _ => NotFoundError
  | ErrNNotLessThanOrder => RangeError
  end.

(** A Go result [(Element, error)]; [None] is the [nil] error. *)
Definition result : Type := Element * option error.

(** [func GetPrimitiveRoot(order uint64) (Element, error)] *)
Definition GetPrimitiveRoot (order : Z) : result :=
  if order =? 0 then (Zero, Some ErrOrderZero)
  else if negb (U64.and order (U64.sub order 1) =? 0)
  then (Zero, Some (ErrNotPowerOfTwo order))
  else match PrimitiveRoots !! order with
       | Some root => (NewFromRaw root, None)
       | None => (Zero, Some (ErrRootNotFound order))
       end.

(** [func PrimitiveRootOfUnity(order uint64) Element] *)
Definition PrimitiveRootOfUnity (order : Z) : Element :=
  match GetPrimitiveRoot order with
  | (_, Some _) => Zero
  | (root, None) => root
  end.

(** [func IsPrimitiveRootOfUnity(element Element, order uint64) bool] *)
Definition IsPrimitiveRootOfUnity (element : Element) (order : Z) : bool :=
  if order =? 0 then false
  else if negb (U64.and order (U64.sub order 1) =? 0) then false
  else if negb (Equal (ModPow element order) One) then false
  else if (1 <? order) && Equal (ModPow element (U64.div order 2)) One
  then false
  else true.

(** [func GeneratePrimitiveRoot(order uint64) (Element, error)] *)
Definition GeneratePrimitiveRoot (order : Z) : result :=
  if order =? 0 then (Zero, Some ErrOrderZero)
  else if negb (U64.and order (U64.sub order 1) =? 0)
  then (Zero, Some (ErrNotPowerOfTwo order))
  else match PrimitiveRoots !! order with
       | Some root => (NewFromRaw root, None)
       | None => (Zero, Some (ErrNotImplemented order))
       end.

(** [func GetInversePrimitiveRoot(order uint64) (Element, error)].  The
    outer [option] is [None] when [root.Inverse()] signals its failure,
    in which case the function does not return. *)
Definition GetInversePrimitiveRoot (order : Z) : option result :=
  match GetPrimitiveRoot order with
  | (_, Some err) => Some (Zero, Some err)
  | (root, None) => inv ← Inverse root; Some (inv, None)
  end.

(** [func GetNthRootOfUnity(order uint64, n uint64) (Element, error)] *)
Definition GetNthRootOfUnity (order n : Z) : result :=
  if order <=? n then (Zero, Some ErrNNotLessThanOrder)
  else match GetPrimitiveRoot order with
       | (_, Some err) => (Zero, Some err)
       | (root, None) => (ModPow root n, None)
       end.

(** [func GetInverseNthRootOfUnity(order uint64, n uint64) (Element, error)] *)
Definition GetInverseNthRootOfUnity (order n : Z) : option result :=
  match GetNthRootOfUnity order n with
  | (_, Some err) => Some (Zero, Some err)
  | (root, None) => inv ← Inverse root; Some (inv, None)
  end.


(** ** Specification vocabulary *)

(** [order] is a power of two. *)
Definition is_pow2 (order : Z) : Prop := exists k, 0 <= k /\ order = 2 ^ k.

(** [x ^ n = 1] in the base field. *)
Definition pow_is_one (x : Element) (n : Z) : Prop := (value x ^ n) mod P = 1.

(** The glossary's "primitive root of unity of order n". *)
Definition primitive_root (x : Element) (order : Z) : Prop :=
  pow_is_one x order /\ (1 < order -> ~ pow_is_one x (order / 2)).

(** The result carries no error. *)
Definition succeeds (r : result) : Prop := snd r = None.

(** The kind of the error of a result, if it carries one. *)
Definition failure_kind (r : result) : option error_kind :=
  kind_of <$> snd r.

(** Decidable form of [is_pow2] on binary numbers. *)
Fixpoint pos_is_pow2 (p : positive) : bool :=
  match p with
  | xH => true
  | xO q => pos_is_pow2 q
  | xI _ => false
  end.

Definition Z_is_pow2 (z : Z) : bool :=
  match z with
  | Zpos p => pos_is_pow2 p
  | _ => false
  end.

(** ** Field arithmetic *)

Section FieldFacts.

Lemma P_pos : 0 < P.
Proof. reflexivity. Qed.

Lemma Mul_value a b : value (Mul a b) = (value a * value b) mod P.
Proof. reflexivity. Qed.

Lemma Mul_canonical a b : canonical (Mul a b).
Proof. unfold canonical. rewrite Mul_value. apply Z.mod_pos_bound, P_pos. Qed.

Lemma NewFromRaw_canonical raw : canonical (NewFromRaw raw).
Proof. unfold canonical, NewFromRaw; simpl. apply Z.mod_pos_bound, P_pos. Qed.

Lemma Equal_true a b : Equal a b = true <-> value a = value b.
Proof. unfold Equal. apply Z.eqb_eq. Qed.

Lemma Equal_false a b : Equal a b = false <-> value a <> value b.
Proof. unfold Equal. apply Z.eqb_neq. Qed.

Lemma P_nonzero : P <> 0.
Proof. discriminate. Qed.

Lemma mul_pow_mod r x n :
  (r * ((x * x) mod P) ^ n) mod P = (r * (x * x) ^ n) mod P.
Proof.
  rewrite <- (Z.mul_mod_idemp_r r (_ ^ n)) by apply P_nonzero.
  rewrite Z.mod_pow_l.
  rewrite Z.mul_mod_idemp_r by apply P_nonzero.
  reflexivity.
Qed.

(** The loop invariant of the square-and-multiply loop. *)
Lemma pow_loop_value e : forall r b,
  value (pow_loop r b e) = (value r * value b ^ Zpos e) mod P.
Proof.
  induction e as [q IH | q IH |]; intros r b; simpl pow_loop.
  - rewrite IH, !Mul_value, mul_pow_mod.
    rewrite Z.mul_mod_idemp_l by apply P_nonzero.
    rewrite (Pos2Z.inj_xI q), Z.pow_add_r, Z.pow_1_r, Z.pow_mul_r by lia.
    rewrite Z.pow_2_r. f_equal. ring.
  - rewrite IH, !Mul_value, mul_pow_mod.
    rewrite (Pos2Z.inj_xO q), Z.pow_mul_r, Z.pow_2_r by lia.
    reflexivity.
  - rewrite Mul_value, Z.pow_1_r. reflexivity.
Qed.

(** [ModPow] computes the power in the field. *)
Lemma ModPow_value a n :
  0 <= n -> value (ModPow a n) = (value a ^ n) mod P.
Proof.
  intros Hn. unfold ModPow, Pow. destruct n as [| q | q].
  - reflexivity.
  - rewrite pow_loop_value. simpl (value One). f_equal. lia.
  - lia.
Qed.

Lemma ModPow_is_one a n :
  0 <= n -> Equal (ModPow a n) One = true <-> pow_is_one a n.
Proof.
  intros Hn. rewrite Equal_true, ModPow_value by exact Hn. reflexivity.
Qed.

End FieldFacts.

(** ** Powers of two and the bit test [order & (order - 1)] *)

Section PowersOfTwo.

Lemma pos_is_pow2_sound p :
  pos_is_pow2 p = true -> exists k, 0 <= k /\ Zpos p = 2 ^ k.
Proof.
  induction p as [q IH | q IH |]; simpl; intros H.
  - discriminate.
  - destruct (IH H) as (k & Hk & Hq). exists (Z.succ k). split; [lia |].
    rewrite Z.pow_succ_r by exact Hk. rewrite <- Hq. reflexivity.
  - exists 0. split; [lia | reflexivity].
Qed.

Lemma pos_is_pow2_complete k :
  0 <= k -> forall p, Zpos p = 2 ^ k -> pos_is_pow2 p = true.
Proof.
  intros Hk. pattern k. apply natlike_ind; [| | exact Hk]; clear k Hk.
  - intros p Hp. change (2 ^ 0) with 1 in Hp.
    destruct p; try discriminate. reflexivity.
  - intros k Hk IH p Hp. rewrite Z.pow_succ_r in Hp by exact Hk.
    assert (Hpos : 0 < 2 ^ k) by (apply Z.pow_pos_nonneg; lia).
    destruct p as [q | q |]; simpl.
    + rewrite Pos2Z.inj_xI in Hp. lia.
    + apply IH. rewrite Pos2Z.inj_xO in Hp. lia.
    + lia.
Qed.

Lemma Z_is_pow2_spec z : Z_is_pow2 z = true <-> is_pow2 z.
Proof.
  unfold is_pow2. split.
  - destruct z as [| p | p]; simpl; try discriminate.
    apply pos_is_pow2_sound.
  - intros (k & Hk & Hz).
    assert (Hpos : 0 < 2 ^ k) by (apply Z.pow_pos_nonneg; lia).
    destruct z as [| p | p]; simpl; try lia.
    apply (pos_is_pow2_complete k Hk p Hz).
Qed.

Lemma land_even_odd a b : Z.land (2 * a) (2 * b + 1) = 2 * Z.land a b.
Proof.
  apply Z.bits_inj'. intros n Hn. rewrite Z.land_spec.
  destruct (Z.eq_dec n 0) as [-> | Hn0].
  - rewrite !Z.testbit_even_0. reflexivity.
  - replace n with (Z.succ (n - 1)) by lia.
    rewrite !Z.testbit_even_succ, Z.testbit_odd_succ by lia.
    symmetry. apply Z.land_spec.
Qed.

Lemma land_odd_even a b : Z.land (2 * a + 1) (2 * b) = 2 * Z.land a b.
Proof. rewrite Z.land_comm, land_even_odd, Z.land_comm. reflexivity. Qed.

(** Clearing the lowest set bit of a positive number gives zero exactly
    for the powers of two. *)
Lemma land_pred_pos p :
  (Z.land (Zpos p) (Zpos p - 1) =? 0) = pos_is_pow2 p.
Proof.
  induction p as [q IH | q IH |].
  - replace (Zpos q~1 - 1) with (2 * Zpos q) by lia.
    rewrite (Pos2Z.inj_xI q), land_odd_even, Z.land_diag.
    simpl pos_is_pow2. apply Z.eqb_neq. lia.
  - simpl pos_is_pow2. rewrite <- IH.
    replace (Zpos q~0 - 1) with (2 * (Zpos q - 1) + 1) by lia.
    rewrite (Pos2Z.inj_xO q), land_even_odd.
    destruct (Z.eqb_spec (Z.land (Zpos q) (Zpos q - 1)) 0) as [E | E].
    + rewrite E. reflexivity.
    + apply Z.eqb_neq. lia.
  - reflexivity.
Qed.

Lemma U64_sub_1 order :
  U64.in_range order -> order <> 0 -> U64.sub order 1 = order - 1.
Proof.
  unfold U64.in_range, U64.sub, U64.wrap. intros H H0.
  apply Z.mod_small. lia.
Qed.

(** The test the Go code writes as [order&(order-1) != 0]. *)
Lemma pow2_test order :
  U64.in_range order -> order <> 0 ->
  (U64.and order (U64.sub order 1) =? 0) = Z_is_pow2 order.
Proof.
  intros Hr H0. rewrite U64_sub_1 by assumption. unfold U64.and.
  destruct order as [| p | p].
  - congruence.
  - apply land_pred_pos.
  - destruct Hr. lia.
Qed.

Lemma is_pow2_pos order : is_pow2 order -> 1 <= order.
Proof.
  intros (k & Hk & ->).
  assert (0 < 2 ^ k) by (apply Z.pow_pos_nonneg; lia). lia.
Qed.

Lemma not_pow2_0 : ~ is_pow2 0.
Proof. intros H. apply is_pow2_pos in H. lia. Qed.

End PowersOfTwo.

(** ** The table *)

Section Table.

Lemma PrimitiveRoots_entry k v :
  PrimitiveRoots !! k = Some v -> (k, v) ∈ PrimitiveRoots_entries.
Proof. unfold PrimitiveRoots. apply elem_of_list_to_map_2. Qed.

(** A property checked on every line of the literal holds of every
    binding of the map. *)
Lemma PrimitiveRoots_all (f : Z -> Z -> bool) :
  forallb (fun kv => f (fst kv) (snd kv)) PrimitiveRoots_entries = true ->
  forall k v, PrimitiveRoots !! k = Some v -> f k v = true.
Proof.
  intros Hall k v Hkv. apply PrimitiveRoots_entry in Hkv.
  rewrite forallb_forall in Hall.
  apply (Hall (k, v)). apply list_elem_of_In. exact Hkv.
Qed.

(** Every key is zero or a power of two up to [2^32]. *)
Lemma PrimitiveRoots_keys k v :
  PrimitiveRoots !! k = Some v ->
  k = 0 \/ (is_pow2 k /\ 1 <= k <= 2 ^ 32).
Proof.
  intros Hkv.
  apply (PrimitiveRoots_all
           (fun k _ => (k =? 0) || (Z_is_pow2 k && (1 <=? k) && (k <=? 2 ^ 32))))
    in Hkv; [| vm_compute; reflexivity].
  apply orb_true_iff in Hkv as [H0 | H].
  - left. apply Z.eqb_eq, H0.
  - right. apply andb_true_iff in H as [H Hle].
    apply andb_true_iff in H as [Hp Hge].
    apply Z_is_pow2_spec in Hp. apply Z.leb_le in Hge, Hle. auto.
Qed.

(** Every power of two up to [2^32] is a key. *)
Lemma PrimitiveRoots_pow2 order :
  is_pow2 order -> order <= 2 ^ 32 -> is_Some (PrimitiveRoots !! order).
Proof.
  intros (k & Hk & ->) Hle.
  apply Z.pow_le_mono_r_iff in Hle; [| lia | lia].
  assert (Hall : Forall (fun j => is_Some (PrimitiveRoots !! (2 ^ j))) (seqZ 0 33)).
  { apply Forall_forall. intros j Hj.
    assert (Hb : forallb (fun j => match PrimitiveRoots !! (2 ^ j) with
                                   | Some _ => true
                                   | None => false
                                   end) (seqZ 0 33) = true)
      by (vm_compute; reflexivity).
    rewrite forallb_forall in Hb. apply list_elem_of_In, Hb in Hj.
    destruct (PrimitiveRoots !! (2 ^ j)); [eauto | discriminate]. }
  rewrite Forall_forall in Hall. apply Hall.
  apply elem_of_seqZ. lia.
Qed.

Lemma PrimitiveRoots_large order :
  2 ^ 32 < order -> PrimitiveRoots !! order = None.
Proof.
  intros Hgt. destruct (PrimitiveRoots !! order) as [v |] eqn:E; [| reflexivity].
  apply PrimitiveRoots_keys in E as [-> | (_ & _ & Hle)]; [| lia].
  assert (0 < 2 ^ 32) by reflexivity. lia.
Qed.

(** Zero is a key of the map too. *)
Lemma PrimitiveRoots_zero : PrimitiveRoots !! 0 = Some 1.
Proof. vm_compute. reflexivity. Qed.

(** The stored roots, read through [NewFromRaw], pass the code's own
    validation at their order. *)
Lemma PrimitiveRoots_valid k v :
  PrimitiveRoots !! k = Some v -> k <> 0 ->
  IsPrimitiveRootOfUnity (NewFromRaw v) k = true.
Proof.
  intros Hkv H0.
  apply (PrimitiveRoots_all
           (fun k v => (k =? 0) || IsPrimitiveRootOfUnity (NewFromRaw v) k))
    in Hkv; [| vm_compute; reflexivity].
  apply orb_true_iff in Hkv as [Hk | H]; [| exact H].
  apply Z.eqb_eq in Hk. contradiction.
Qed.

(** The stored roots are invertible, and [Inverse] returns an inverse. *)
Lemma PrimitiveRoots_invertible k v :
  PrimitiveRoots !! k = Some v ->
  exists inv, Inverse (NewFromRaw v) = Some inv /\
              Mul inv (NewFromRaw v) = One /\ Mul (NewFromRaw v) inv = One.
Proof.
  intros Hkv.
  apply (PrimitiveRoots_all
           (fun _ v => match Inverse (NewFromRaw v) with
                       | Some inv => Equal (Mul inv (NewFromRaw v)) One
                                     && Equal (Mul (NewFromRaw v) inv) One
                       | None => false
                       end))
    in Hkv; [| vm_compute; reflexivity].
  destruct (Inverse (NewFromRaw v)) as [inv |]; [| discriminate].
  exists inv. apply andb_true_iff in Hkv as [H1 H2].
  apply Equal_true in H1, H2. simpl in H1, H2.
  repeat split; unfold Mul, One; f_equal; assumption.
Qed.

End Table.

(** ** Concrete runs *)

(** The spec's scenario for the registry: the root of order two squares to
    [One] and is not [One]. *)
Example lookup_order_two :
  let r := fst (GetPrimitiveRoot 2) in
  snd (GetPrimitiveRoot 2) = None /\
  Equal (ModPow r 2) One = true /\ Equal r One = false.
Proof. vm_compute. repeat split. Qed.

Example lookup_order_three :
  GetPrimitiveRoot 3 = (Zero, Some (ErrNotPowerOfTwo 3)).
Proof. reflexivity. Qed.

Example lookup_order_2_63 :
  GetPrimitiveRoot (2 ^ 63) = (Zero, Some (ErrRootNotFound (2 ^ 63))).
Proof. vm_compute. reflexivity. Qed.

Example nth_root_order_four :
  GetNthRootOfUnity 4 2 = (NewFromRaw 18446744069414584320, None).
Proof. vm_compute. reflexivity. Qed.

Example inverse_nth_root_order_four :
  GetInverseNthRootOfUnity 4 1 = Some (ModPow (NewFromRaw 281474976710656) 3, None).
Proof. vm_compute. reflexivity. Qed.

(** ** Lookup: [GetPrimitiveRoot] and [GeneratePrimitiveRoot] *)

Section Lookup.

Lemma in_range_pow2 order :
  is_pow2 order -> order <= 2 ^ 32 -> U64.in_range order /\ order <> 0.
Proof.
  intros Hp Hle. apply is_pow2_pos in Hp.
  assert (2 ^ 32 < U64.modulus) by reflexivity.
  unfold U64.in_range. lia.
Qed.

(** The three guards of [GetPrimitiveRoot], with the bit test read as
    "is a power of two". *)
Lemma GetPrimitiveRoot_unfold order :
  U64.in_range order ->
  GetPrimitiveRoot order =
    if order =? 0 then (Zero, Some ErrOrderZero)
    else if Z_is_pow2 order
    then match PrimitiveRoots !! order with
         | Some root => (NewFromRaw root, None)
         | None => (Zero, Some (ErrRootNotFound order))
         end
    else (Zero, Some (ErrNotPowerOfTwo order)).
Proof.
  intros Hr. unfold GetPrimitiveRoot.
  destruct (Z.eqb_spec order 0) as [E | E]; [reflexivity |].
  rewrite pow2_test by assumption.
  destruct (Z_is_pow2 order); reflexivity.
Qed.

Lemma GeneratePrimitiveRoot_unfold order :
  U64.in_range order ->
  GeneratePrimitiveRoot order =
    if order =? 0 then (Zero, Some ErrOrderZero)
    else if Z_is_pow2 order
    then match PrimitiveRoots !! order with
         | Some root => (NewFromRaw root, None)
         | None => (Zero, Some (ErrNotImplemented order))
         end
    else (Zero, Some (ErrNotPowerOfTwo order)).
Proof.
  intros Hr. unfold GeneratePrimitiveRoot.
  destruct (Z.eqb_spec order 0) as [E | E]; [reflexivity |].
  rewrite pow2_test by assumption.
  destruct (Z_is_pow2 order); reflexivity.
Qed.

Lemma Z_is_pow2_false order : Z_is_pow2 order = false <-> ~ is_pow2 order.
Proof.
  rewrite <- Z_is_pow2_spec. destruct (Z_is_pow2 order); split; intros H;
    try reflexivity; try discriminate; try (intros ?; discriminate).
  exfalso. apply H. reflexivity.
Qed.

(** A successful lookup read its element from the table. *)
Lemma GetPrimitiveRoot_success order r :
  GetPrimitiveRoot order = (r, None) ->
  order <> 0 /\ exists root, PrimitiveRoots !! order = Some root /\ r = NewFromRaw root.
Proof.
  unfold GetPrimitiveRoot.
  destruct (Z.eqb_spec order 0) as [E | E]; [discriminate |].
  destruct (negb _); [discriminate |].
  destruct (PrimitiveRoots !! order) as [root |]; [| discriminate].
  intros [= <-]. split; [exact E | exists root; split; reflexivity].
Qed.

(** A key other than zero passes the guards, bit test included. *)
Lemma GetPrimitiveRoot_key order root :
  order <> 0 -> PrimitiveRoots !! order = Some root ->
  GetPrimitiveRoot order = (NewFromRaw root, None).
Proof.
  intros H0 Hk.
  destruct (PrimitiveRoots_keys _ _ Hk) as [-> | (Hp & _ & Hle)]; [congruence |].
  destruct (in_range_pow2 _ Hp Hle) as [Hr _].
  rewrite GetPrimitiveRoot_unfold by exact Hr.
  destruct (Z.eqb_spec order 0) as [E | _]; [congruence |].
  apply Z_is_pow2_spec in Hp. rewrite Hp, Hk. reflexivity.
Qed.

Lemma GetPrimitiveRoot_failure order err :
  snd (GetPrimitiveRoot order) = Some err ->
  GetPrimitiveRoot order = (Zero, Some err).
Proof.
  unfold GetPrimitiveRoot.
  destruct (order =? 0); [intros [= <-]; reflexivity |].
  destruct (negb _); [intros [= <-]; reflexivity |].
  destruct (PrimitiveRoots !! order); [discriminate | intros [= <-]; reflexivity].
Qed.

End Lookup.

(** C3.  [GetPrimitiveRoot order] fails with the zero-order error (a domain
    error) when [order] is zero, with the power-of-two error (a domain
    error) when [order] is not a power of two, with the not-found error
    when [order] is a power of two above [2^32], which has no table entry;
    and it succeeds, returning the table entry, exactly when [order] is a
    power of two with [1 <= order <= 2^32]. *)
Theorem GetPrimitiveRoot_outcome (order : Z) :
  U64.in_range order ->
  (order = 0 ->
     GetPrimitiveRoot order = (Zero, Some ErrOrderZero) /\
     failure_kind (GetPrimitiveRoot order) = Some DomainError) /\
  (order <> 0 -> ~ is_pow2 order ->
     GetPrimitiveRoot order = (Zero, Some (ErrNotPowerOfTwo order)) /\
     failure_kind (GetPrimitiveRoot order) = Some DomainError) /\
  (is_pow2 order -> 2 ^ 32 < order ->
     PrimitiveRoots !! order = None /\
     GetPrimitiveRoot order = (Zero, Some (ErrRootNotFound order)) /\
     failure_kind (GetPrimitiveRoot order) = Some NotFoundError) /\
  (is_pow2 order -> 1 <= order <= 2 ^ 32 ->
     exists root, PrimitiveRoots !! order = Some root /\
                  GetPrimitiveRoot order = (NewFromRaw root, None)) /\
  (succeeds (GetPrimitiveRoot order) <-> is_pow2 order /\ 1 <= order <= 2 ^ 32).
Proof.
  intros Hr. rewrite (GetPrimitiveRoot_unfold order Hr). unfold succeeds.
  destruct (Z.eqb_spec order 0) as [E | E].
  { subst order. pose proof not_pow2_0.
    repeat split; try tauto; try lia; try discriminate. }
  destruct (Z_is_pow2 order) eqn:Hp.
  - apply Z_is_pow2_spec in Hp. pose proof (is_pow2_pos _ Hp) as Hpos.
    destruct (Z_le_gt_dec order (2 ^ 32)) as [Hle | Hgt].
    + destruct (PrimitiveRoots_pow2 order Hp Hle) as [root Hroot].
      rewrite Hroot. repeat split; try tauto; try lia; eauto.
    + rewrite (PrimitiveRoots_large order) by lia.
      repeat split; try tauto; try lia; try discriminate.
  - apply Z_is_pow2_false in Hp.
    repeat split; try tauto; try lia; try discriminate.
Qed.

Lemma GetPrimitiveRoot_outcome_witness :
  U64.in_range 8 /\ is_pow2 8 /\ 1 <= 8 <= 2 ^ 32 /\
  exists root, PrimitiveRoots !! 8 = Some root /\
               GetPrimitiveRoot 8 = (NewFromRaw root, None).
Proof.
  assert (Hr : U64.in_range 8) by (unfold U64.in_range, U64.modulus; lia).
  assert (Hp : is_pow2 8) by (exists 3; split; [lia | reflexivity]).
  assert (Hb : 1 <= 8 <= 2 ^ 32) by lia.
  split; [exact Hr |]. split; [exact Hp |]. split; [exact Hb |].
  exact (proj1 (proj2 (proj2 (proj2 (GetPrimitiveRoot_outcome 8 Hr)))) Hp Hb).
Defined.

(** C7 (amended).  For a power-of-two [order] without a table entry, which
    are the powers of two above [2^32], [GeneratePrimitiveRoot] fails with
    the not-implemented error and derives nothing; for every non-zero
    [order] that is a key of the table it succeeds with the stored root. *)
Theorem GeneratePrimitiveRoot_outcome (order : Z) :
  U64.in_range order ->
  (is_pow2 order -> (PrimitiveRoots !! order = None <-> 2 ^ 32 < order)) /\
  (is_pow2 order -> PrimitiveRoots !! order = None ->
     GeneratePrimitiveRoot order = (Zero, Some (ErrNotImplemented order))) /\
  (forall root, order <> 0 -> PrimitiveRoots !! order = Some root ->
     GeneratePrimitiveRoot order = (NewFromRaw root, None)).
Proof.
  intros Hr. rewrite (GeneratePrimitiveRoot_unfold order Hr).
  split; [| split].
  - intros Hp. split.
    + intros Hnone. destruct (Z_le_gt_dec order (2 ^ 32)) as [Hle | Hgt]; [| lia].
      destruct (PrimitiveRoots_pow2 order Hp Hle) as [root Hroot]. congruence.
    + apply PrimitiveRoots_large.
  - intros Hp Hnone. pose proof (is_pow2_pos _ Hp) as Hpos.
    destruct (Z.eqb_spec order 0) as [E | _]; [lia |].
    apply Z_is_pow2_spec in Hp. rewrite Hp, Hnone. reflexivity.
  - intros root H0 Hk.
    destruct (Z.eqb_spec order 0) as [E | _]; [contradiction |].
    destruct (PrimitiveRoots_keys _ _ Hk) as [E | (Hp & _)]; [contradiction |].
    apply Z_is_pow2_spec in Hp. rewrite Hp, Hk. reflexivity.
Qed.

Lemma GeneratePrimitiveRoot_outcome_witness :
  U64.in_range (2 ^ 33) /\ is_pow2 (2 ^ 33) /\
  PrimitiveRoots !! (2 ^ 33) = None /\
  GeneratePrimitiveRoot (2 ^ 33) = (Zero, Some (ErrNotImplemented (2 ^ 33))).
Proof.
  assert (Hr : U64.in_range (2 ^ 33)) by (unfold U64.in_range, U64.modulus; lia).
  assert (Hp : is_pow2 (2 ^ 33)) by (exists 33; split; [lia | reflexivity]).
  assert (Hn : PrimitiveRoots !! (2 ^ 33) = None) by (vm_compute; reflexivity).
  split; [exact Hr |]. split; [exact Hp |]. split; [exact Hn |].
  exact (proj1 (proj2 (GeneratePrimitiveRoot_outcome (2 ^ 33) Hr)) Hp Hn).
Defined.

(** C7, as stated, fails at the key [0]: it is in the table and
    [GeneratePrimitiveRoot 0] does not succeed. *)
Lemma GeneratePrimitiveRoot_key_zero :
  U64.in_range 0 /\ PrimitiveRoots !! 0 = Some 1 /\
  GeneratePrimitiveRoot 0 = (Zero, Some ErrOrderZero) /\
  ~ succeeds (GeneratePrimitiveRoot 0).
Proof.
  repeat split; try (vm_compute; reflexivity); try (vm_compute; discriminate).
Qed.

(** C8 (amended).  Every key of [PrimitiveRoots] is zero or a power of two
    with [1 <= key <= 2^32]. *)
Theorem PrimitiveRoots_key_range (key : Z) :
  is_Some (PrimitiveRoots !! key) ->
  key = 0 \/ (is_pow2 key /\ 1 <= key <= 2 ^ 32).
Proof. intros [v Hv]. exact (PrimitiveRoots_keys key v Hv). Qed.

Lemma PrimitiveRoots_key_range_witness :
  is_Some (PrimitiveRoots !! 4) /\ (4 = 0 \/ (is_pow2 4 /\ 1 <= 4 <= 2 ^ 32)).
Proof.
  assert (Hk : is_Some (PrimitiveRoots !! 4)).
  { exists 281474976710656. vm_compute. reflexivity. }
  split; [exact Hk | exact (PrimitiveRoots_key_range 4 Hk)].
Defined.

(** C8, as stated, fails: [0] is a key and it is neither a power of two
    nor at least one. *)
Lemma PrimitiveRoots_key_zero :
  ~ (forall key, is_Some (PrimitiveRoots !! key) ->
                 is_pow2 key /\ 1 <= key <= 2 ^ 32).
Proof.
  intros H. destruct (H 0) as [_ [Hge _]]; [| lia].
  exists 1. exact PrimitiveRoots_zero.
Qed.

(** C9.  [GeneratePrimitiveRoot] succeeds exactly when [GetPrimitiveRoot]
    does, and wherever they succeed they return the same result. *)
Theorem Generate_agrees_with_Get (order : Z) :
  (succeeds (GeneratePrimitiveRoot order) <-> succeeds (GetPrimitiveRoot order)) /\
  (succeeds (GetPrimitiveRoot order) ->
     GeneratePrimitiveRoot order = GetPrimitiveRoot order) /\
  fst (GeneratePrimitiveRoot order) = fst (GetPrimitiveRoot order).
Proof.
  unfold succeeds, GeneratePrimitiveRoot, GetPrimitiveRoot.
  destruct (order =? 0); [simpl; intuition discriminate |].
  destruct (negb _); [simpl; intuition discriminate |].
  destruct (PrimitiveRoots !! order); simpl; intuition discriminate.
Qed.

Lemma Generate_agrees_with_Get_witness :
  succeeds (GetPrimitiveRoot 16) /\
  GeneratePrimitiveRoot 16 = GetPrimitiveRoot 16.
Proof.
  assert (Hs : succeeds (GetPrimitiveRoot 16)) by (vm_compute; reflexivity).
  split; [exact Hs | exact (proj1 (proj2 (Generate_agrees_with_Get 16)) Hs)].
Defined.

(** C10.  With order zero, [GetNthRootOfUnity 0 n] fails for every [n],
    and the failure is the range error of the first check, not the
    zero-order error of [GetPrimitiveRoot]. *)
Theorem GetNthRootOfUnity_order_zero (n : Z) :
  U64.in_range n ->
  GetNthRootOfUnity 0 n = (Zero, Some ErrNNotLessThanOrder) /\
  failure_kind (GetNthRootOfUnity 0 n) = Some RangeError /\
  snd (GetNthRootOfUnity 0 n) <> Some ErrOrderZero.
Proof.
  intros [Hn _]. unfold failure_kind, GetNthRootOfUnity.
  destruct (Z.leb_spec 0 n) as [_ | Hlt]; [| lia].
  repeat split. discriminate.
Qed.

Lemma GetNthRootOfUnity_order_zero_witness :
  U64.in_range 5 /\ GetNthRootOfUnity 0 5 = (Zero, Some ErrNNotLessThanOrder).
Proof.
  assert (Hr : U64.in_range 5) by (unfold U64.in_range, U64.modulus; lia).
  split; [exact Hr | exact (proj1 (GetNthRootOfUnity_order_zero 5 Hr))].
Defined.

(** ** Validation: [IsPrimitiveRootOfUnity] *)

Section Validation.

Lemma half_nonneg order : 0 <= order -> 0 <= U64.div order 2.
Proof. intros H. unfold U64.div. apply Z.div_pos; lia. Qed.

(** The body of [IsPrimitiveRootOfUnity] past its two guards. *)
Lemma power_checks e order :
  0 <= order ->
  (if negb (Equal (ModPow e order) One) then false
   else if (1 <? order) && Equal (ModPow e (U64.div order 2)) One
        then false else true) = true
  <-> pow_is_one e order /\ (order <= 1 \/ ~ pow_is_one e (order / 2)).
Proof.
  intros Hn.
  rewrite <- (ModPow_is_one e order Hn).
  rewrite <- (ModPow_is_one e (order / 2) (half_nonneg order Hn)).
  unfold U64.div.
  destruct (Equal (ModPow e order) One); simpl.
  - destruct (Z.ltb_spec 1 order) as [Hlt | Hle]; simpl.
    + destruct (Equal (ModPow e (order / 2)) One); simpl.
      * split; [discriminate |]. intros [_ [H | H]]; [lia | congruence].
      * split; [| reflexivity]. intros _. split; [reflexivity |].
        right. discriminate.
    + split; [| reflexivity]. intros _. split; [reflexivity | left; exact Hle].
  - split; [discriminate |]. intros [H _]. discriminate.
Qed.

(** What [IsPrimitiveRootOfUnity] accepts. *)
Lemma IsPrimitiveRootOfUnity_true_iff e order :
  U64.in_range order ->
  IsPrimitiveRootOfUnity e order = true <->
    is_pow2 order /\ pow_is_one e order /\
    (order <= 1 \/ ~ pow_is_one e (order / 2)).
Proof.
  intros Hr. unfold IsPrimitiveRootOfUnity.
  destruct (Z.eqb_spec order 0) as [E | E].
  { subst order. split; [discriminate |].
    intros [Hp _]. exfalso. exact (not_pow2_0 Hp). }
  rewrite pow2_test by assumption.
  destruct (Z_is_pow2 order) eqn:Hp; simpl negb; cbv iota.
  - apply Z_is_pow2_spec in Hp.
    rewrite (power_checks e order (proj1 Hr)). tauto.
  - apply Z_is_pow2_false in Hp. split; [discriminate | tauto].
Qed.

End Validation.

(** C2 (amended).  [IsPrimitiveRootOfUnity element order] is a total
    boolean function, and it returns [true] if and only if [order] is a
    power of two, [element ^ order = 1] and ([order <= 1] or
    [element ^ (order / 2) <> 1]); for order zero and for every order that
    is not a power of two it returns [false]. *)
Theorem IsPrimitiveRootOfUnity_spec (element : Element) (order : Z) :
  U64.in_range order ->
  (IsPrimitiveRootOfUnity element order = true <->
     is_pow2 order /\ pow_is_one element order /\
     (order <= 1 \/ ~ pow_is_one element (order / 2))) /\
  (order = 0 \/ ~ is_pow2 order -> IsPrimitiveRootOfUnity element order = false).
Proof.
  intros Hr.
  pose proof (IsPrimitiveRootOfUnity_true_iff element order Hr) as Hiff.
  split; [exact Hiff |].
  intros Hbad. destruct (IsPrimitiveRootOfUnity element order) eqn:Hv; [| reflexivity].
  exfalso. destruct (proj1 Hiff eq_refl) as [Hp _].
  destruct Hbad as [-> | Hn]; [exact (not_pow2_0 Hp) | exact (Hn Hp)].
Qed.

Lemma IsPrimitiveRootOfUnity_spec_witness :
  U64.in_range 2 /\
  (IsPrimitiveRootOfUnity (NewFromRaw 18446744069414584320) 2 = true <->
     is_pow2 2 /\ pow_is_one (NewFromRaw 18446744069414584320) 2 /\
     (2 <= 1 \/ ~ pow_is_one (NewFromRaw 18446744069414584320) (2 / 2))).
Proof.
  assert (Hr : U64.in_range 2) by (unfold U64.in_range, U64.modulus; lia).
  split; [exact Hr |].
  exact (proj1 (IsPrimitiveRootOfUnity_spec (NewFromRaw 18446744069414584320) 2 Hr)).
Defined.

(** C2, as stated for all orders, fails: at order zero the right-hand
    side holds of [One] and the function returns [false]; at order three,
    not a power of two, it holds of a cube root of unity other than one and
    the function returns [false] again. *)
Lemma IsPrimitiveRootOfUnity_rejects_orders :
  U64.in_range 0 /\ U64.in_range 3 /\
  ~ (IsPrimitiveRootOfUnity One 0 = true <->
       pow_is_one One 0 /\ (0 <= 1 \/ ~ pow_is_one One (0 / 2))) /\
  ~ (IsPrimitiveRootOfUnity (mkElement 18446744065119617025) 3 = true <->
       pow_is_one (mkElement 18446744065119617025) 3 /\
       (3 <= 1 \/ ~ pow_is_one (mkElement 18446744065119617025) (3 / 2))).
Proof.
  split; [unfold U64.in_range, U64.modulus; lia |].
  split; [unfold U64.in_range, U64.modulus; lia |].
  split.
  - intros [_ H].
    assert (Hf : IsPrimitiveRootOfUnity One 0 = false) by reflexivity.
    rewrite H in Hf; [discriminate |].
    split; [reflexivity | left; lia].
  - intros [_ H].
    assert (Hf : IsPrimitiveRootOfUnity (mkElement 18446744065119617025) 3 = false)
      by (vm_compute; reflexivity).
    rewrite H in Hf; [discriminate |].
    split; [vm_compute; reflexivity |].
    right. vm_compute. discriminate.
Qed.

(** C1.  Whenever [GetPrimitiveRoot order] succeeds with [r], the element
    [r] is a primitive root of unity of exactly that order:
    [r ^ order = 1] modulo [p], [r ^ (order / 2) <> 1] when [order > 1],
    and [IsPrimitiveRootOfUnity r order] is [true]. *)
Theorem GetPrimitiveRoot_is_primitive (order : Z) (r : Element) :
  GetPrimitiveRoot order = (r, None) ->
  (value r ^ order) mod P = 1 /\
  (1 < order -> (value r ^ (order / 2)) mod P <> 1) /\
  IsPrimitiveRootOfUnity r order = true.
Proof.
  intros Hget.
  destruct (GetPrimitiveRoot_success order r Hget) as (H0 & root & Hroot & ->).
  pose proof (PrimitiveRoots_valid order root Hroot H0) as Hvalid.
  destruct (PrimitiveRoots_keys order root Hroot) as [E | (Hp & _ & Hle)];
    [contradiction |].
  destruct (in_range_pow2 order Hp Hle) as [Hr _].
  destruct (proj1 (IsPrimitiveRootOfUnity_true_iff (NewFromRaw root) order Hr) Hvalid)
    as (_ & Hone & Hhalf).
  split; [exact Hone |]. split; [| exact Hvalid].
  intros Hgt. destruct Hhalf as [Hle1 | Hne]; [lia | exact Hne].
Qed.

Lemma GetPrimitiveRoot_is_primitive_witness :
  GetPrimitiveRoot 2 = (NewFromRaw 18446744069414584320, None) /\
  (value (NewFromRaw 18446744069414584320) ^ 2) mod P = 1 /\
  (1 < 2 -> (value (NewFromRaw 18446744069414584320) ^ (2 / 2)) mod P <> 1) /\
  IsPrimitiveRootOfUnity (NewFromRaw 18446744069414584320) 2 = true.
Proof.
  assert (Hget : GetPrimitiveRoot 2 = (NewFromRaw 18446744069414584320, None))
    by (vm_compute; reflexivity).
  split; [exact Hget |].
  exact (GetPrimitiveRoot_is_primitive 2 _ Hget).
Defined.

(** ** Derived roots: inverse and n-th roots *)

Section Derived.


(** On a failed lookup the inverse lookup returns the same error. *)
Lemma GetInversePrimitiveRoot_failure order err :
  GetPrimitiveRoot order = (Zero, Some err) ->
  GetInversePrimitiveRoot order = Some (Zero, Some err).
Proof. intros H. unfold GetInversePrimitiveRoot. rewrite H. reflexivity. Qed.

(** On a successful lookup the inverse lookup returns an inverse. *)
Lemma GetInversePrimitiveRoot_success order root :
  GetPrimitiveRoot order = (root, None) ->
  exists inv, GetInversePrimitiveRoot order = Some (inv, None) /\
              Mul inv root = One /\ Mul root inv = One.
Proof.
  intros H. destruct (GetPrimitiveRoot_success order root H) as (_ & raw & Hk & ->).
  destruct (PrimitiveRoots_invertible order raw Hk) as (inv & Hinv & Hl & Hr).
  exists inv. unfold GetInversePrimitiveRoot. rewrite H, Hinv. auto.
Qed.

Lemma GetNthRootOfUnity_range order n :
  order <= n -> GetNthRootOfUnity order n = (Zero, Some ErrNNotLessThanOrder).
Proof.
  intros H. unfold GetNthRootOfUnity.
  destruct (Z.leb_spec order n) as [_ | Hlt]; [reflexivity | lia].
Qed.

Lemma GetNthRootOfUnity_below order n :
  n < order ->
  GetNthRootOfUnity order n =
    match GetPrimitiveRoot order with
    | (_, Some err) => (Zero, Some err)
    | (root, None) => (ModPow root n, None)
    end.
Proof.
  intros H. unfold GetNthRootOfUnity.
  destruct (Z.leb_spec order n) as [Hle | _]; [lia | reflexivity].
Qed.


End Derived.

(** C5.  For a supported order, a power of two with
    [1 <= order <= 2^32], and [0 <= n < order], [GetNthRootOfUnity order n]
    succeeds and returns the root of [GetPrimitiveRoot order] raised to the
    power [n]; for [n >= order] it fails with the range error. *)
Theorem GetNthRootOfUnity_spec (order n : Z) :
  U64.in_range n -> is_pow2 order -> 1 <= order <= 2 ^ 32 ->
  (n < order ->
     exists root, GetPrimitiveRoot order = (root, None) /\
                  GetNthRootOfUnity order n = (ModPow root n, None) /\
                  value (ModPow root n) = (value root ^ n) mod P) /\
  (order <= n ->
     GetNthRootOfUnity order n = (Zero, Some ErrNNotLessThanOrder) /\
     failure_kind (GetNthRootOfUnity order n) = Some RangeError).
Proof.
  intros Hn Hp Hb. split.
  - intros Hlt. destruct (PrimitiveRoots_pow2 order Hp (proj2 Hb)) as [raw Hraw].
    assert (Hget : GetPrimitiveRoot order = (NewFromRaw raw, None))
      by (apply GetPrimitiveRoot_key; [lia | exact Hraw]).
    exists (NewFromRaw raw). split; [exact Hget |]. split.
    + rewrite (GetNthRootOfUnity_below order n Hlt), Hget. reflexivity.
    + apply ModPow_value. exact (proj1 Hn).
  - intros Hge. rewrite (GetNthRootOfUnity_range order n Hge).
    split; reflexivity.
Qed.

Lemma GetNthRootOfUnity_spec_witness :
  U64.in_range 3 /\ is_pow2 8 /\ 1 <= 8 <= 2 ^ 32 /\ 3 < 8 /\
  exists root, GetPrimitiveRoot 8 = (root, None) /\
               GetNthRootOfUnity 8 3 = (ModPow root 3, None) /\
               value (ModPow root 3) = (value root ^ 3) mod P.
Proof.
  assert (Hn : U64.in_range 3) by (unfold U64.in_range, U64.modulus; lia).
  assert (Hp : is_pow2 8) by (exists 3; split; [lia | reflexivity]).
  assert (Hb : 1 <= 8 <= 2 ^ 32) by lia.
  assert (Hlt : 3 < 8) by lia.
  split; [exact Hn |]. split; [exact Hp |]. split; [exact Hb |].
  split; [exact Hlt |].
  exact (proj1 (GetNthRootOfUnity_spec 8 3 Hn Hp Hb) Hlt).
Defined.

(** C6.  [GetInversePrimitiveRoot order] succeeds exactly when
    [GetPrimitiveRoot order] does, it fails with the same error, and when
    both succeed the product of the two elements is [One]. *)
Theorem GetInversePrimitiveRoot_spec (order : Z) :
  (succeeds (GetPrimitiveRoot order) <->
     exists inv, GetInversePrimitiveRoot order = Some (inv, None)) /\
  (forall err, snd (GetPrimitiveRoot order) = Some err <->
     GetInversePrimitiveRoot order = Some (Zero, Some err)) /\
  (forall root inv,
     GetPrimitiveRoot order = (root, None) ->
     GetInversePrimitiveRoot order = Some (inv, None) ->
     Mul inv root = One /\ Mul root inv = One).
Proof.
  unfold succeeds.
  destruct (GetPrimitiveRoot order) as [r [e |]] eqn:E.
  - assert (Hz : r = Zero).
    { pose proof (GetPrimitiveRoot_failure order e) as H.
      rewrite E in H. specialize (H eq_refl). congruence. }
    subst r. rewrite (GetInversePrimitiveRoot_failure order e E). simpl.
    split; [| split].
    + split; [discriminate | intros [inv H]; discriminate].
    + intros err. split; congruence.
    + intros root inv H. discriminate.
  - destruct (GetInversePrimitiveRoot_success order r E) as (inv & Hinv & Hl & Hr).
    rewrite Hinv. simpl. split; [| split].
    + split; [eauto | reflexivity].
    + intros err. split; discriminate.
    + intros root inv' [= <-] [= <-]. auto.
Qed.

Lemma GetInversePrimitiveRoot_spec_witness :
  GetPrimitiveRoot 8 = (mkElement 18446744069397807105, None) /\
  GetInversePrimitiveRoot 8 = Some (mkElement 1099511627520, None) /\
  Mul (mkElement 1099511627520) (mkElement 18446744069397807105) = One.
Proof.
  assert (Hget : GetPrimitiveRoot 8 = (mkElement 18446744069397807105, None))
    by (vm_compute; reflexivity).
  assert (Hinv : GetInversePrimitiveRoot 8 = Some (mkElement 1099511627520, None))
    by (vm_compute; reflexivity).
  split; [exact Hget |]. split; [exact Hinv |].
  exact (proj1 (proj2 (proj2 (GetInversePrimitiveRoot_spec 8)) _ _ Hget Hinv)).
Defined.




(** ** Powers of a root of unity *)

(** Run a boolean test on every line of the table literal and apply it
    to the binding [Hkv : PrimitiveRoots !! k = Some v]. *)
Ltac check_table F k v Hkv Hc :=
  pose proof (PrimitiveRoots_all F) as Hc;
  lapply Hc;
  [ clear Hc; intros Hc; specialize (Hc k v Hkv); cbv beta in Hc
  | vm_compute; reflexivity ].

Section Cyclic.

Lemma Element_eq (a b : Element) : value a = value b -> a = b.
Proof. destruct a, b. simpl. intros ->. reflexivity. Qed.

Lemma pow_add_mod x a b :
  0 <= a -> 0 <= b ->
  (x ^ (a + b)) mod P = ((x ^ a mod P) * (x ^ b mod P)) mod P.
Proof.
  intros Ha Hb. rewrite Z.pow_add_r by assumption.
  apply Z.mul_mod, P_nonzero.
Qed.

Lemma one_mod_P : 1 mod P = 1.
Proof. reflexivity. Qed.

(** Multiples of a period are periods. *)
Lemma pow_multiple x N q :
  0 <= N -> 0 <= q -> (x ^ N) mod P = 1 -> (x ^ (N * q)) mod P = 1.
Proof.
  intros HN Hq H. rewrite Z.pow_mul_r by assumption.
  rewrite <- Z.mod_pow_l, H, Z.pow_1_l by exact Hq. exact one_mod_P.
Qed.

(** A period can be added to or removed from an exponent. *)
Lemma pow_add_period x N a :
  0 <= N -> 0 <= a -> (x ^ N) mod P = 1 ->
  (x ^ (a + N)) mod P = (x ^ a) mod P.
Proof.
  intros HN Ha H. rewrite pow_add_mod, H, Z.mul_1_r by assumption.
  apply Z.mod_mod, P_nonzero.
Qed.

Lemma pow_reduce x N n :
  0 < N -> 0 <= n -> (x ^ N) mod P = 1 ->
  (x ^ n) mod P = (x ^ (n mod N)) mod P.
Proof.
  intros HN Hn H.
  pose proof (Z.mod_pos_bound n N HN) as Hb.
  assert (Hq : 0 <= n / N) by (apply Z.div_pos; lia).
  rewrite (Z.div_mod n N) at 1 by lia.
  rewrite Z.add_comm, pow_add_mod by nia.
  rewrite (pow_multiple x N (n / N)) by (assumption || lia).
  rewrite Z.mul_1_r. apply Z.mod_mod, P_nonzero.
Qed.

(** A power-of-two period whose half is not a period is the least one. *)
Lemma least_period k :
  0 <= k -> forall x,
  (x ^ (2 ^ k)) mod P = 1 ->
  (1 <= k -> (x ^ (2 ^ (k - 1))) mod P <> 1) ->
  forall d, 0 < d < 2 ^ k -> (x ^ d) mod P <> 1.
Proof.
  intros Hk. pattern k. apply natlike_ind; [| | exact Hk]; clear k Hk.
  - intros x _ _ d Hd. change (2 ^ 0) with 1 in Hd. lia.
  - intros k Hk IH x Hfull Hhalf d Hd Hone.
    replace (Z.succ k - 1) with k in Hhalf by lia.
    specialize (Hhalf ltac:(lia)).
    rewrite Z.pow_succ_r in Hfull, Hd by exact Hk.
    assert (Hpos : 0 < 2 ^ k) by (apply Z.pow_pos_nonneg; lia).
    assert (Hsq : forall e, 0 <= e -> ((x ^ 2) ^ e) mod P = (x ^ (2 * e)) mod P).
    { intros e He. rewrite <- Z.pow_mul_r by lia. reflexivity. }
    assert (IH' : forall e, 0 < e < 2 ^ k -> (x ^ (2 * e)) mod P <> 1).
    { intros e He. rewrite <- Hsq by lia. apply IH; [| | exact He].
      - rewrite Hsq by lia. exact Hfull.
      - intros Hk1. rewrite Hsq by lia.
        replace (2 * 2 ^ (k - 1)) with (2 ^ k); [exact Hhalf |].
        replace k with (Z.succ (k - 1)) at 1 by lia.
        rewrite Z.pow_succ_r by lia. reflexivity. }
    assert (Hdd : (x ^ (2 * d)) mod P = 1).
    { replace (2 * d) with (d * 2) by lia. apply pow_multiple; [lia | lia | exact Hone]. }
    destruct (Z.lt_trichotomy d (2 ^ k)) as [Hlt | [Heq | Hgt]].
    + apply (IH' d); [lia | exact Hdd].
    + subst d. contradiction.
    + apply (IH' (d - 2 ^ k)); [lia |].
      rewrite <- (pow_add_period x (2 * 2 ^ k) (2 * (d - 2 ^ k))) by (lia || exact Hfull).
      replace (2 * (d - 2 ^ k) + 2 * 2 ^ k) with (2 * d) by lia. exact Hdd.
Qed.

(** What the registry knows of the root of a supported order. *)
Lemma root_facts order r :
  GetPrimitiveRoot order = (r, None) ->
  exists k, 0 <= k <= 32 /\ order = 2 ^ k /\
            0 < value r < P /\
            PrimitiveRoots !! order = Some (value r) /\
            (value r ^ order) mod P = 1 /\
            (1 <= k -> (value r ^ (2 ^ (k - 1))) mod P <> 1).
Proof.
  intros Hget.
  destruct (GetPrimitiveRoot_success order r Hget) as (H0 & raw & Hraw & ->).
  pose proof (PrimitiveRoots_valid order raw Hraw H0) as Hvalid.
  destruct (PrimitiveRoots_keys order raw Hraw) as [E | (Hp & Hge & Hle)];
    [contradiction |].
  destruct (in_range_pow2 order Hp Hle) as [Hr _].
  apply (IsPrimitiveRootOfUnity_true_iff _ _ Hr) in Hvalid as (_ & Hone & Hhalf).
  check_table (fun (_ v : Z) => (0 <? v) && (v <? P)) order raw Hraw Hcanon.
  apply andb_true_iff in Hcanon as [Hlo Hhi].
  apply Z.ltb_lt in Hlo, Hhi.
  assert (Hv : value (NewFromRaw raw) = raw) by (simpl; apply Z.mod_small; lia).
  destruct Hp as (k & Hk & ->). exists k.
  assert (Hk32 : k <= 32) by (apply (Z.pow_le_mono_r_iff 2); lia).
  rewrite Hv. repeat split; try lia; try assumption.
  - unfold pow_is_one in Hone. rewrite Hv in Hone. exact Hone.
  - intros Hk1. destruct Hhalf as [Hle1 | Hne].
    + assert (2 ^ 1 <= 2 ^ k) by (apply Z.pow_le_mono_r; lia).
      change (2 ^ 1) with 2 in *. lia.
    + unfold pow_is_one in Hne. rewrite Hv in Hne.
      replace (2 ^ k / 2) with (2 ^ (k - 1)) in Hne; [exact Hne |].
      replace k with (Z.succ (k - 1)) at 2 by lia.
      rewrite Z.pow_succ_r by lia.
      rewrite Z.mul_comm, Z.div_mul by lia. reflexivity.
Qed.

End Cyclic.

(** ** The group of n-th roots *)

Section NthRoots.

Lemma succeeds_root order :
  succeeds (GetPrimitiveRoot order) -> exists r, GetPrimitiveRoot order = (r, None).
Proof.
  unfold succeeds. destruct (GetPrimitiveRoot order) as [r e]. simpl.
  intros ->. exists r. reflexivity.
Qed.

Lemma GetNthRootOfUnity_success order r n :
  GetPrimitiveRoot order = (r, None) -> n < order ->
  GetNthRootOfUnity order n = (ModPow r n, None).
Proof.
  intros Hget Hlt. rewrite (GetNthRootOfUnity_below order n Hlt), Hget.
  reflexivity.
Qed.

Lemma P_value : P = 18446744069414584321.
Proof. reflexivity. Qed.

Lemma Pow_value a n : 0 <= n -> value (Pow a n) = (value a ^ n) mod P.
Proof. exact (ModPow_value a n). Qed.

Lemma pow2_positive k : 0 <= k -> 0 < 2 ^ k.
Proof. intros Hk. apply Z.pow_pos_nonneg; lia. Qed.

(** The order of a table entry divides [p - 1]. *)
Lemma order_divides_group k :
  0 <= k <= 32 -> P - 1 = 2 ^ k * (2 ^ (32 - k) * (2 ^ 32 - 1)).
Proof.
  intros Hk. rewrite Z.mul_assoc, <- Z.pow_add_r by lia.
  replace (k + (32 - k)) with 32 by lia. reflexivity.
Qed.

(** The powers of a root of unity are units, inverted by [Inverse]. *)
Lemma Inverse_of_power order r n :
  GetPrimitiveRoot order = (r, None) -> 0 <= n ->
  exists inv, Inverse (ModPow r n) = Some inv /\ canonical inv /\
              Mul inv (ModPow r n) = One.
Proof.
  intros Hget Hn.
  destruct (root_facts order r Hget) as (k & Hk & -> & Hv & _ & Hone & _).
  pose proof (pow2_positive k (proj1 Hk)) as Hpos.
  assert (Hgroup : (value r ^ (P - 1)) mod P = 1).
  { rewrite (order_divides_group k Hk).
    apply pow_multiple; [lia | | exact Hone].
    apply Z.mul_nonneg_nonneg; [apply Z.lt_le_incl, pow2_positive; lia | lia]. }
  pose proof P_value as HP.
  assert (Hunit : (value (ModPow r n) ^ (P - 1)) mod P = 1).
  { rewrite ModPow_value, Z.mod_pow_l, <- Z.pow_mul_r by lia.
    rewrite Z.mul_comm. apply pow_multiple; [lia | exact Hn | exact Hgroup]. }
  unfold Inverse.
  destruct (Equal (ModPow r n) Zero) eqn:Hz.
  - apply Equal_true in Hz. simpl (value Zero) in Hz. rewrite Hz in Hunit.
    rewrite Z.pow_0_l, Z.mod_0_l in Hunit by (lia || apply P_nonzero).
    discriminate.
  - eexists. split; [reflexivity |]. split.
    { unfold canonical. rewrite Pow_value by lia.
      apply Z.mod_pos_bound, P_pos. }
    apply Element_eq. rewrite Mul_value.
    rewrite (Pow_value (ModPow r n) (P - 2)) by lia.
    rewrite Z.mul_mod_idemp_l by apply P_nonzero.
    replace (value (ModPow r n) ^ (P - 2) * value (ModPow r n))
      with (value (ModPow r n) ^ (P - 1)); [exact Hunit |].
    replace (P - 1) with (Z.succ (P - 2)) by lia.
    rewrite Z.pow_succ_r by lia. apply Z.mul_comm.
Qed.

(** Inverses in the field are unique. *)
Lemma inverse_unique a b x :
  0 <= a < P -> 0 <= b < P ->
  (a * x) mod P = 1 -> (b * x) mod P = 1 -> a = b.
Proof.
  intros Ha Hb Hax Hbx.
  assert (H1 : (a * (b * x)) mod P = a).
  { rewrite <- Z.mul_mod_idemp_r, Hbx, Z.mul_1_r by apply P_nonzero.
    apply Z.mod_small, Ha. }
  assert (H2 : (b * (a * x)) mod P = b).
  { rewrite <- Z.mul_mod_idemp_r, Hax, Z.mul_1_r by apply P_nonzero.
    apply Z.mod_small, Hb. }
  transitivity ((a * (b * x)) mod P); [symmetry; exact H1 |].
  replace (a * (b * x)) with (b * (a * x)) by ring. exact H2.
Qed.

(** Below the order, distinct exponents give distinct powers. *)
Lemma powers_differ x k n m :
  0 <= k -> (x ^ (2 ^ k)) mod P = 1 ->
  (1 <= k -> (x ^ (2 ^ (k - 1))) mod P <> 1) ->
  0 <= n -> n < m -> m < 2 ^ k ->
  (x ^ n) mod P <> (x ^ m) mod P.
Proof.
  intros Hk Hone Hhalf Hn Hnm Hm Heq.
  apply (least_period k Hk x Hone Hhalf (m - n)); [lia |].
  rewrite <- (pow_add_period x (2 ^ k) (m - n)) by (lia || exact Hone).
  replace (m - n + 2 ^ k) with (m + (2 ^ k - n)) by lia.
  rewrite pow_add_mod, <- Heq, <- pow_add_mod by lia.
  replace (n + (2 ^ k - n)) with (2 ^ k) by lia. exact Hone.
Qed.

End NthRoots.

(** X1.  Every element [GetNthRootOfUnity order n] returns for a supported
    order and [n < order] is a root of unity of that order. *)
Theorem nth_root_is_root_of_unity (order n : Z) :
  succeeds (GetPrimitiveRoot order) -> 0 <= n < order ->
  succeeds (GetNthRootOfUnity order n) /\
  (value (fst (GetNthRootOfUnity order n)) ^ order) mod P = 1.
Proof.
  intros Hs Hn. destruct (succeeds_root order Hs) as [r Hget].
  destruct (root_facts order r Hget) as (k & Hk & Ho & _ & _ & Hone & _).
  rewrite (GetNthRootOfUnity_success order r n Hget (proj2 Hn)).
  split; [reflexivity |]. simpl fst.
  rewrite ModPow_value, Z.mod_pow_l, <- Z.pow_mul_r by lia.
  rewrite Z.mul_comm. apply pow_multiple; [lia | lia | exact Hone].
Qed.

Lemma nth_root_is_root_of_unity_witness :
  succeeds (GetPrimitiveRoot 8) /\ 0 <= 3 < 8 /\
  (value (fst (GetNthRootOfUnity 8 3)) ^ 8) mod P = 1.
Proof.
  assert (Hs : succeeds (GetPrimitiveRoot 8)) by (vm_compute; reflexivity).
  assert (Hn : 0 <= 3 < 8) by lia.
  split; [exact Hs |]. split; [exact Hn |].
  exact (proj2 (nth_root_is_root_of_unity 8 3 Hs Hn)).
Defined.

(** X2.  The n-th roots of a supported order multiply by adding their
    indices modulo the order. *)
Theorem nth_roots_multiply (order a b : Z) :
  succeeds (GetPrimitiveRoot order) -> 0 <= a < order -> 0 <= b < order ->
  Mul (fst (GetNthRootOfUnity order a)) (fst (GetNthRootOfUnity order b)) =
  fst (GetNthRootOfUnity order ((a + b) mod order)).
Proof.
  intros Hs Ha Hb. destruct (succeeds_root order Hs) as [r Hget].
  destruct (root_facts order r Hget) as (k & Hk & Ho & _ & _ & Hone & _).
  assert (Hab : 0 <= (a + b) mod order < order) by (apply Z.mod_pos_bound; lia).
  rewrite !(GetNthRootOfUnity_success order r _ Hget) by lia. simpl fst.
  apply Element_eq. rewrite Mul_value, !ModPow_value by lia.
  rewrite <- pow_add_mod by lia.
  apply pow_reduce; [lia | lia | exact Hone].
Qed.

Lemma nth_roots_multiply_witness :
  succeeds (GetPrimitiveRoot 8) /\ 0 <= 5 < 8 /\ 0 <= 6 < 8 /\
  Mul (fst (GetNthRootOfUnity 8 5)) (fst (GetNthRootOfUnity 8 6)) =
  fst (GetNthRootOfUnity 8 ((5 + 6) mod 8)).
Proof.
  assert (Hs : succeeds (GetPrimitiveRoot 8)) by (vm_compute; reflexivity).
  assert (Ha : 0 <= 5 < 8) by lia.
  assert (Hb : 0 <= 6 < 8) by lia.
  split; [exact Hs |]. split; [exact Ha |]. split; [exact Hb |].
  exact (nth_roots_multiply 8 5 6 Hs Ha Hb).
Defined.

(** X3.  For a supported order the [order] elements returned for
    [n = 0, ..., order - 1] are pairwise distinct. *)
Theorem nth_roots_distinct (order n m : Z) :
  succeeds (GetPrimitiveRoot order) -> 0 <= n < order -> 0 <= m < order ->
  n <> m ->
  fst (GetNthRootOfUnity order n) <> fst (GetNthRootOfUnity order m).
Proof.
  intros Hs Hn Hm Hne. destruct (succeeds_root order Hs) as [r Hget].
  destruct (root_facts order r Hget) as (k & Hk & -> & _ & _ & Hone & Hhalf).
  rewrite !(GetNthRootOfUnity_success _ r _ Hget) by lia. simpl fst.
  intros Heq. apply (f_equal value) in Heq.
  rewrite !ModPow_value in Heq by lia.
  destruct (Z.lt_trichotomy n m) as [Hlt | [E | Hgt]]; [| exact (Hne E) |].
  - apply (powers_differ (value r) k n m); (lia || assumption).
  - apply (powers_differ (value r) k m n); (lia || auto).
Qed.

Lemma nth_roots_distinct_witness :
  succeeds (GetPrimitiveRoot 4) /\ 0 <= 1 < 4 /\ 0 <= 3 < 4 /\ 1 <> 3 /\
  fst (GetNthRootOfUnity 4 1) <> fst (GetNthRootOfUnity 4 3).
Proof.
  assert (Hs : succeeds (GetPrimitiveRoot 4)) by (vm_compute; reflexivity).
  assert (Hn : 0 <= 1 < 4) by lia.
  assert (Hm : 0 <= 3 < 4) by lia.
  assert (Hne : 1 <> 3) by lia.
  split; [exact Hs |]. split; [exact Hn |]. split; [exact Hm |].
  split; [exact Hne |].
  exact (nth_roots_distinct 4 1 3 Hs Hn Hm Hne).
Defined.

(** X4.  For a supported order and [n < order],
    [GetInverseNthRootOfUnity order n] succeeds, its element times the
    n-th root is [One], and it is the root of index [(order - n) mod order]. *)
Theorem inverse_nth_root (order n : Z) :
  succeeds (GetPrimitiveRoot order) -> 0 <= n < order ->
  exists inv,
    GetInverseNthRootOfUnity order n = Some (inv, None) /\
    Mul inv (fst (GetNthRootOfUnity order n)) = One /\
    inv = fst (GetNthRootOfUnity order ((order - n) mod order)).
Proof.
  intros Hs Hn. destruct (succeeds_root order Hs) as [r Hget].
  destruct (root_facts order r Hget) as (k & Hk & Ho & _ & _ & Hone & _).
  destruct (Inverse_of_power order r n Hget (proj1 Hn)) as (inv & Hinv & Hc & Hmul).
  assert (He : 0 <= (order - n) mod order < order) by (apply Z.mod_pos_bound; lia).
  exists inv. unfold GetInverseNthRootOfUnity.
  rewrite !(GetNthRootOfUnity_success order r _ Hget) by lia.
  rewrite Hinv. simpl. split; [reflexivity |]. split; [exact Hmul |].
  apply Element_eq. apply (f_equal value) in Hmul. rewrite Mul_value in Hmul.
  apply (inverse_unique _ _ (value (ModPow r n))); [exact Hc | | exact Hmul |].
  - rewrite ModPow_value by lia. apply Z.mod_pos_bound, P_pos.
  - rewrite !ModPow_value, <- pow_add_mod by lia.
    rewrite (pow_reduce (value r) order) by (lia || exact Hone).
    rewrite Z.add_mod_idemp_l by lia.
    replace (order - n + n) with order by lia.
    rewrite Z.mod_same by lia. reflexivity.
Qed.

Lemma inverse_nth_root_witness :
  succeeds (GetPrimitiveRoot 8) /\ 0 <= 3 < 8 /\
  exists inv,
    GetInverseNthRootOfUnity 8 3 = Some (inv, None) /\
    Mul inv (fst (GetNthRootOfUnity 8 3)) = One /\
    inv = fst (GetNthRootOfUnity 8 ((8 - 3) mod 8)).
Proof.
  assert (Hs : succeeds (GetPrimitiveRoot 8)) by (vm_compute; reflexivity).
  assert (Hn : 0 <= 3 < 8) by lia.
  split; [exact Hs |]. split; [exact Hn |].
  exact (inverse_nth_root 8 3 Hs Hn).
Defined.

(** ** Further facts on the table and the guards *)

Section TableFacts.

Lemma ModPow_1 r : canonical r -> ModPow r 1 = r.
Proof.
  intros Hc. apply Element_eq. rewrite ModPow_value, Z.pow_1_r by lia.
  apply Z.mod_small, Hc.
Qed.

Lemma root_canonical order r :
  GetPrimitiveRoot order = (r, None) -> canonical r.
Proof.
  intros Hget. destruct (root_facts order r Hget) as (k & _ & _ & Hv & _).
  unfold canonical. lia.
Qed.

Lemma half_below order : 2 <= order -> 0 <= order / 2 < order.
Proof.
  intros H. split; [apply Z.div_pos; lia | apply Z.div_lt; lia].
Qed.

Lemma GetPrimitiveRoot_raw order raw :
  order <> 0 -> PrimitiveRoots !! order = Some raw ->
  GetPrimitiveRoot order = (mkElement raw, None).
Proof.
  intros H0 Hraw. rewrite (GetPrimitiveRoot_key order raw H0 Hraw).
  check_table (fun (_ v : Z) => (0 <=? v) && (v <? P)) order raw Hraw Hc.
  apply andb_true_iff in Hc as [Hlo Hhi].
  apply Z.leb_le in Hlo. apply Z.ltb_lt in Hhi.
  unfold NewFromRaw. rewrite Z.mod_small by lia. reflexivity.
Qed.

End TableFacts.

(** X5.  For a supported order the root of index zero is [One]; for an
    order above one the root of index one is the primitive root itself and
    the root of index [order / 2] is [p - 1], that is minus one. *)
Theorem nth_root_landmarks (order : Z) :
  succeeds (GetPrimitiveRoot order) ->
  GetNthRootOfUnity order 0 = (One, None) /\
  (1 < order ->
     GetNthRootOfUnity order 1 = GetPrimitiveRoot order /\
     GetNthRootOfUnity order (order / 2) = (mkElement (P - 1), None)).
Proof.
  intros Hs. destruct (succeeds_root order Hs) as [r Hget].
  destruct (root_facts order r Hget) as (k & Hk & Ho & Hv & Hraw & _).
  assert (Hpos : 0 < order) by (subst order; apply pow2_positive; lia).
  split.
  - rewrite (GetNthRootOfUnity_success order r 0 Hget Hpos). reflexivity.
  - intros Hgt. split.
    + rewrite (GetNthRootOfUnity_success order r 1 Hget Hgt), Hget.
      rewrite (ModPow_1 r (root_canonical order r Hget)). reflexivity.
    + rewrite (GetNthRootOfUnity_success order r _ Hget)
        by (apply half_below; lia).
      f_equal. apply Element_eq. simpl value.
      check_table (fun k v => (k <? 2) ||
                              (value (ModPow (mkElement v) (k / 2)) =? P - 1))
                  order (value r) Hraw Hc.
      apply orb_true_iff in Hc as [Hc | Hc]; [apply Z.ltb_lt in Hc; lia |].
      apply Z.eqb_eq in Hc. destruct r as [x]. exact Hc.
Qed.

Lemma nth_root_landmarks_witness :
  succeeds (GetPrimitiveRoot 16) /\ 1 < 16 /\
  GetNthRootOfUnity 16 1 = GetPrimitiveRoot 16 /\
  GetNthRootOfUnity 16 (16 / 2) = (mkElement (P - 1), None).
Proof.
  assert (Hs : succeeds (GetPrimitiveRoot 16)) by (vm_compute; reflexivity).
  assert (Hgt : 1 < 16) by lia.
  split; [exact Hs |]. split; [exact Hgt |].
  exact (proj2 (nth_root_landmarks 16 Hs) Hgt).
Defined.

(** X6.  For a supported order [GetInversePrimitiveRoot] returns an
    element that passes [IsPrimitiveRootOfUnity] at the same order, and it
    is the root of index [order - 1]. *)
Theorem inverse_root_is_primitive (order : Z) :
  succeeds (GetPrimitiveRoot order) ->
  exists inv,
    GetInversePrimitiveRoot order = Some (inv, None) /\
    IsPrimitiveRootOfUnity inv order = true /\
    GetNthRootOfUnity order (order - 1) = (inv, None).
Proof.
  intros Hs. destruct (succeeds_root order Hs) as [r Hget].
  destruct (root_facts order r Hget) as (k & Hk & Ho & Hv & Hraw & _).
  assert (Hpos : 0 < order) by (subst order; apply pow2_positive; lia).
  pose proof (GetPrimitiveRoot_raw order (value r) ltac:(lia) Hraw) as Hget'.
  assert (Hr : r = mkElement (value r)) by congruence.
  check_table (fun k v => (k =? 0) ||
                 match Inverse (mkElement v) with
                 | Some inv => IsPrimitiveRootOfUnity inv k &&
                               (value inv =? value (ModPow (mkElement v) (k - 1)))
                 | None => false
                 end)
              order (value r) Hraw Hc.
  apply orb_true_iff in Hc as [Hc | Hc]; [apply Z.eqb_eq in Hc; lia |].
  rewrite <- Hr in Hc.
  unfold GetInversePrimitiveRoot. rewrite Hget.
  rewrite (GetNthRootOfUnity_success order r (order - 1) Hget) by lia.
  destruct (Inverse r) as [inv |]; [| discriminate].
  apply andb_true_iff in Hc as [Hprim Heq]. apply Z.eqb_eq in Heq.
  exists inv. simpl. split; [reflexivity |]. split; [exact Hprim |].
  f_equal. symmetry. apply Element_eq, Heq.
Qed.

Lemma inverse_root_is_primitive_witness :
  succeeds (GetPrimitiveRoot 8) /\
  exists inv,
    GetInversePrimitiveRoot 8 = Some (inv, None) /\
    IsPrimitiveRootOfUnity inv 8 = true /\
    GetNthRootOfUnity 8 (8 - 1) = (inv, None).
Proof.
  assert (Hs : succeeds (GetPrimitiveRoot 8)) by (vm_compute; reflexivity).
  split; [exact Hs | exact (inverse_root_is_primitive 8 Hs)].
Defined.

(** X7.  The table is consistent under halving: the square of the root of
    a supported order [>= 2] is the root the table stores for
    [order / 2]. *)
Theorem root_of_half_order (order : Z) (r : Element) :
  2 <= order -> GetPrimitiveRoot order = (r, None) ->
  GetPrimitiveRoot (order / 2) = (Mul r r, None).
Proof.
  intros Hge Hget.
  destruct (root_facts order r Hget) as (k & Hk & Ho & Hv & Hraw & _).
  check_table (fun k v => (k <? 2) ||
                 match PrimitiveRoots !! (k / 2) with
                 | Some w => ((v * v) mod P =? w)
                 | None => false
                 end)
              order (value r) Hraw Hc.
  apply orb_true_iff in Hc as [Hc | Hc]; [apply Z.ltb_lt in Hc; lia |].
  destruct (PrimitiveRoots !! (order / 2)) as [w |] eqn:Hw; [| discriminate].
  apply Z.eqb_eq in Hc.
  assert (Hhalf : order / 2 <> 0).
  { pose proof (Z.div_le_lower_bound order 2 1 ltac:(lia) ltac:(lia)). lia. }
  rewrite (GetPrimitiveRoot_raw (order / 2) w Hhalf Hw).
  f_equal. apply Element_eq. rewrite Mul_value. simpl. symmetry. exact Hc.
Qed.

Lemma root_of_half_order_witness :
  2 <= 8 /\ GetPrimitiveRoot 8 = (mkElement 18446744069397807105, None) /\
  GetPrimitiveRoot (8 / 2) =
    (Mul (mkElement 18446744069397807105) (mkElement 18446744069397807105), None).
Proof.
  assert (Hge : 2 <= 8) by lia.
  assert (Hget : GetPrimitiveRoot 8 = (mkElement 18446744069397807105, None))
    by (vm_compute; reflexivity).
  split; [exact Hge |]. split; [exact Hget |].
  exact (root_of_half_order 8 _ Hge Hget).
Defined.

(** X8.  [PrimitiveRootOfUnity] returns [Zero] exactly for the orders on
    which [GetPrimitiveRoot] fails, so [Zero] is an unambiguous failure
    value; and its result passes [IsPrimitiveRootOfUnity] at the order
    exactly when the lookup succeeds. *)
Theorem PrimitiveRootOfUnity_sentinel (order : Z) :
  U64.in_range order ->
  (PrimitiveRootOfUnity order = Zero <-> ~ succeeds (GetPrimitiveRoot order)) /\
  (IsPrimitiveRootOfUnity (PrimitiveRootOfUnity order) order = true <->
     succeeds (GetPrimitiveRoot order)).
Proof.
  intros Hr. unfold PrimitiveRootOfUnity, succeeds.
  destruct (GetPrimitiveRoot order) as [r [err |]] eqn:Hget; simpl.
  - split.
    + split; [intros _; discriminate | reflexivity].
    + split; [| discriminate]. intros Hv.
      apply (IsPrimitiveRootOfUnity_true_iff _ _ Hr) in Hv as (Hp & Hone & _).
      apply is_pow2_pos in Hp. unfold pow_is_one in Hone. simpl in Hone.
      rewrite Z.pow_0_l, Z.mod_0_l in Hone by (lia || apply P_nonzero).
      discriminate.
  - destruct (root_facts order r Hget) as (k & _ & _ & Hv & _).
    destruct (GetPrimitiveRoot_success order r Hget) as (H0 & raw & Hraw & ->).
    split.
    + split; [| intros H; contradiction H; reflexivity].
      intros Hz. rewrite Hz in Hv. simpl in Hv. lia.
    + split; [reflexivity |]. intros _.
      exact (PrimitiveRoots_valid order raw Hraw H0).
Qed.

Lemma PrimitiveRootOfUnity_sentinel_witness :
  U64.in_range 6 /\
  (PrimitiveRootOfUnity 6 = Zero <-> ~ succeeds (GetPrimitiveRoot 6)).
Proof.
  assert (Hr : U64.in_range 6) by (unfold U64.in_range, U64.modulus; lia).
  split; [exact Hr | exact (proj1 (PrimitiveRootOfUnity_sentinel 6 Hr))].
Defined.

(** X9.  Every constant a lookup can return is stored in canonical form:
    it is non-zero and below [p], so the element returned carries exactly
    the stored number. *)
Theorem stored_roots_canonical (order : Z) (r : Element) :
  GetPrimitiveRoot order = (r, None) ->
  PrimitiveRoots !! order = Some (value r) /\ 0 < value r < P.
Proof.
  intros Hget. destruct (root_facts order r Hget) as (k & _ & _ & Hv & Hraw & _).
  split; assumption.
Qed.

Lemma stored_roots_canonical_witness :
  GetPrimitiveRoot 4 = (mkElement 281474976710656, None) /\
  PrimitiveRoots !! 4 = Some 281474976710656 /\ 0 < 281474976710656 < P.
Proof.
  assert (Hget : GetPrimitiveRoot 4 = (mkElement 281474976710656, None))
    by (vm_compute; reflexivity).
  split; [exact Hget | exact (stored_roots_canonical 4 _ Hget)].
Defined.

(** X10.  On [uint64] the test [order & (order - 1) == 0] holds exactly of
    zero, where [order - 1] wraps around, and of the powers of two; the
    separate zero guard is what rejects zero. *)
Theorem power_of_two_test (order : Z) :
  U64.in_range order ->
  U64.and order (U64.sub order 1) = 0 <-> order = 0 \/ is_pow2 order.
Proof.
  intros Hr. destruct (Z.eq_dec order 0) as [-> | H0].
  - split; [auto | reflexivity].
  - rewrite <- Z.eqb_eq, (pow2_test order Hr H0), Z_is_pow2_spec. tauto.
Qed.

Lemma power_of_two_test_witness :
  U64.in_range 64 /\
  (U64.and 64 (U64.sub 64 1) = 0 <-> 64 = 0 \/ is_pow2 64).
Proof.
  assert (Hr : U64.in_range 64) by (unfold U64.in_range, U64.modulus; lia).
  split; [exact Hr | exact (power_of_two_test 64 Hr)].
Defined.

(** X11.  [GetNthRootOfUnity order n] succeeds exactly when [order] is a
    power of two up to [2^32] and [n < order]; below the order it reports
    the error of [GetPrimitiveRoot] unchanged; and it never reports the
    zero-order error, whatever the arguments. *)
Theorem GetNthRootOfUnity_outcome (order n : Z) :
  U64.in_range order -> U64.in_range n ->
  (succeeds (GetNthRootOfUnity order n) <->
     is_pow2 order /\ order <= 2 ^ 32 /\ n < order) /\
  (n < order -> snd (GetNthRootOfUnity order n) = snd (GetPrimitiveRoot order)) /\
  snd (GetNthRootOfUnity order n) <> Some ErrOrderZero.
Proof.
  intros Hr Hn. unfold succeeds.
  destruct (Z_le_gt_dec order n) as [Hle | Hgt].
  { rewrite (GetNthRootOfUnity_range order n Hle). simpl.
    split; [| split]; [| lia | discriminate].
    split; [discriminate | lia]. }
  assert (Hlt : n < order) by lia.
  assert (Hsnd : snd (GetNthRootOfUnity order n) = snd (GetPrimitiveRoot order)).
  { rewrite (GetNthRootOfUnity_below order n Hlt).
    destruct (GetPrimitiveRoot order) as [r [e |]]; reflexivity. }
  rewrite Hsnd. split; [| split]; [| intros _; reflexivity |].
  - rewrite (GetPrimitiveRoot_unfold order Hr).
    destruct (Z.eqb_spec order 0) as [E | E]; [destruct Hn; lia |].
    destruct (Z_is_pow2 order) eqn:Hp.
    + apply Z_is_pow2_spec in Hp.
      destruct (Z_le_gt_dec order (2 ^ 32)) as [Hle | Hbig].
      * destruct (PrimitiveRoots_pow2 order Hp Hle) as [raw Hraw].
        rewrite Hraw. simpl. tauto.
      * rewrite (PrimitiveRoots_large order) by lia. simpl.
        split; [discriminate | lia].
    + apply Z_is_pow2_false in Hp. simpl. split; [discriminate | tauto].
  - rewrite (GetPrimitiveRoot_unfold order Hr).
    destruct (Z.eqb_spec order 0) as [E | E]; [destruct Hn; lia |].
    destruct (Z_is_pow2 order); [| discriminate].
    destruct (PrimitiveRoots !! order); discriminate.
Qed.

Lemma GetNthRootOfUnity_outcome_witness :
  U64.in_range 6 /\ U64.in_range 2 /\ 2 < 6 /\
  snd (GetNthRootOfUnity 6 2) = snd (GetPrimitiveRoot 6).
Proof.
  assert (Hr : U64.in_range 6) by (unfold U64.in_range, U64.modulus; lia).
  assert (Hn : U64.in_range 2) by (unfold U64.in_range, U64.modulus; lia).
  assert (Hlt : 2 < 6) by lia.
  split; [exact Hr |]. split; [exact Hn |]. split; [exact Hlt |].
  exact (proj1 (proj2 (GetNthRootOfUnity_outcome 6 2 Hr Hn)) Hlt).
Defined.

(** X12.  [GeneratePrimitiveRoot] and [GetPrimitiveRoot] report the same
    error on every order but the powers of two above [2^32], where the
    first reports "not implemented" and the second "not found". *)
Theorem Generate_Get_errors (order : Z) :
  U64.in_range order ->
  (~ (is_pow2 order /\ 2 ^ 32 < order) ->
     GeneratePrimitiveRoot order = GetPrimitiveRoot order) /\
  (is_pow2 order -> 2 ^ 32 < order ->
     GetPrimitiveRoot order = (Zero, Some (ErrRootNotFound order)) /\
     GeneratePrimitiveRoot order = (Zero, Some (ErrNotImplemented order))).
Proof.
  intros Hr.
  rewrite (GeneratePrimitiveRoot_unfold order Hr), (GetPrimitiveRoot_unfold order Hr).
  destruct (Z.eqb_spec order 0) as [E | E].
  { subst order. split; [reflexivity |]. intros Hp. destruct (not_pow2_0 Hp). }
  destruct (Z_is_pow2 order) eqn:Hp.
  - apply Z_is_pow2_spec in Hp.
    destruct (Z_le_gt_dec order (2 ^ 32)) as [Hle | Hbig].
    + destruct (PrimitiveRoots_pow2 order Hp Hle) as [raw Hraw]. rewrite Hraw.
      split; [reflexivity | lia].
    + rewrite (PrimitiveRoots_large order) by lia.
      split; [| auto]. intros Hn. exfalso. apply Hn. split; [exact Hp | lia].
  - apply Z_is_pow2_false in Hp. split; [reflexivity | tauto].
Qed.

Lemma Generate_Get_errors_witness :
  U64.in_range 12 /\ ~ (is_pow2 12 /\ 2 ^ 32 < 12) /\
  GeneratePrimitiveRoot 12 = GetPrimitiveRoot 12.
Proof.
  assert (Hr : U64.in_range 12) by (unfold U64.in_range, U64.modulus; lia).
  assert (Hn : ~ (is_pow2 12 /\ 2 ^ 32 < 12)) by lia.
  split; [exact Hr |]. split; [exact Hn |].
  exact (proj1 (Generate_Get_errors 12 Hr) Hn).
Defined.

(** X13.  The two inverse operations always return: [Inverse] is never
    called on [Zero], and the result carries exactly the error of the
    operation whose element is inverted. *)
Theorem inverse_operations_return (order n : Z) :
  U64.in_range n ->
  (exists e, GetInversePrimitiveRoot order = Some (e, snd (GetPrimitiveRoot order))) /\
  (exists e, GetInverseNthRootOfUnity order n =
             Some (e, snd (GetNthRootOfUnity order n))).
Proof.
  intros Hn. split.
  - destruct (GetPrimitiveRoot order) as [r [err |]] eqn:Hget.
    + exists Zero. unfold GetInversePrimitiveRoot. rewrite Hget. reflexivity.
    + destruct (GetInversePrimitiveRoot_success order r Hget) as (inv & Hinv & _).
      exists inv. exact Hinv.
  - unfold GetInverseNthRootOfUnity.
    destruct (Z_le_gt_dec order n) as [Hle | Hgt].
    { rewrite (GetNthRootOfUnity_range order n Hle). exists Zero. reflexivity. }
    rewrite (GetNthRootOfUnity_below order n) by lia.
    destruct (GetPrimitiveRoot order) as [r [err |]] eqn:Hget.
    + exists Zero. reflexivity.
    + destruct (Inverse_of_power order r n Hget (proj1 Hn)) as (inv & Hinv & _).
      exists inv. rewrite Hinv. reflexivity.
Qed.

Lemma inverse_operations_return_witness :
  U64.in_range 0 /\
  exists e, GetInverseNthRootOfUnity 2 0 = Some (e, snd (GetNthRootOfUnity 2 0)).
Proof.
  assert (Hn : U64.in_range 0) by (unfold U64.in_range, U64.modulus; lia).
  split; [exact Hn | exact (proj2 (inverse_operations_return 2 0 Hn))].
Defined.

Section Generators.

Lemma pow_of_power x n e :
  0 <= n -> 0 <= e -> ((x ^ n mod P) ^ e) mod P = (x ^ (n * e)) mod P.
Proof.
  intros Hn He. rewrite Z.mod_pow_l, <- Z.pow_mul_r by assumption.
  reflexivity.
Qed.

Lemma half_pow2 k : 1 <= k -> 2 ^ k / 2 = 2 ^ (k - 1) /\ 2 ^ k = 2 * 2 ^ (k - 1).
Proof.
  intros Hk.
  assert (E : 2 ^ k = 2 * 2 ^ (k - 1)).
  { replace k with (Z.succ (k - 1)) at 1 by lia. apply Z.pow_succ_r. lia. }
  split; [| exact E]. rewrite E, Z.mul_comm, Z.div_mul by lia. reflexivity.
Qed.

End Generators.

(** X14.  For a supported order above one, the n-th root passes
    [IsPrimitiveRootOfUnity] at that order exactly when [n] is odd: the odd
    powers are the generators, the even powers are not. *)
Theorem nth_root_primitive_iff_odd (order n : Z) :
  succeeds (GetPrimitiveRoot order) -> 1 < order -> 0 <= n < order ->
  IsPrimitiveRootOfUnity (fst (GetNthRootOfUnity order n)) order = Z.odd n.
Proof.
  intros Hs Hgt Hn. destruct (succeeds_root order Hs) as [r Hget].
  destruct (root_facts order r Hget) as (k & Hk & Ho & _ & _ & Hone & Hhalf).
  assert (Hk1 : 1 <= k).
  { destruct (Z.eq_dec k 0) as [-> | ?]; [| lia]. subst order. simpl in Hgt. lia. }
  specialize (Hhalf Hk1).
  destruct (half_pow2 k Hk1) as [Hdiv Hdouble].
  assert (Hh : 0 < 2 ^ (k - 1)) by (apply pow2_positive; lia).
  assert (Hp : is_pow2 order) by (exists k; split; [lia | exact Ho]).
  assert (Hle : order <= 2 ^ 32).
  { subst order. apply Z.pow_le_mono_r; lia. }
  destruct (in_range_pow2 order Hp Hle) as [Hr _].
  rewrite (GetNthRootOfUnity_success order r n Hget (proj2 Hn)). simpl fst.
  assert (Hfull : pow_is_one (ModPow r n) order).
  { unfold pow_is_one. rewrite ModPow_value, pow_of_power by lia.
    rewrite Z.mul_comm. apply pow_multiple; [lia | lia | exact Hone]. }
  assert (Hmid : forall q, 0 <= q ->
            (value r ^ (2 ^ k * q)) mod P = 1).
  { intros q Hq. apply pow_multiple; [lia | exact Hq |]. rewrite <- Ho. exact Hone. }
  destruct (Z.odd n) eqn:Hodd.
  - apply (IsPrimitiveRootOfUnity_true_iff _ _ Hr).
    split; [exact Hp |]. split; [exact Hfull |]. right.
    apply Z.odd_spec in Hodd as [q Hq].
    unfold pow_is_one. rewrite ModPow_value, pow_of_power by (subst order; lia).
    rewrite Ho, Hdiv.
    replace (n * 2 ^ (k - 1)) with (2 ^ (k - 1) + 2 ^ k * q) by (rewrite Hdouble; nia).
    rewrite pow_add_period; [exact Hhalf | nia | lia | apply Hmid; lia].
  - destruct (IsPrimitiveRootOfUnity (ModPow r n) order) eqn:Hv; [| reflexivity].
    apply (IsPrimitiveRootOfUnity_true_iff _ _ Hr) in Hv as (_ & _ & [Hsmall | Hne]);
      [lia |].
    exfalso. apply Hne. rewrite <- Z.negb_even in Hodd.
    apply negb_false_iff, Z.even_spec in Hodd as [q Hq].
    unfold pow_is_one. rewrite ModPow_value, pow_of_power by (subst order; lia).
    rewrite Ho, Hdiv.
    replace (n * 2 ^ (k - 1)) with (2 ^ k * q) by (rewrite Hdouble; nia).
    apply Hmid. lia.
Qed.

Lemma nth_root_primitive_iff_odd_witness :
  succeeds (GetPrimitiveRoot 8) /\ 1 < 8 /\ 0 <= 6 < 8 /\
  IsPrimitiveRootOfUnity (fst (GetNthRootOfUnity 8 6)) 8 = Z.odd 6.
Proof.
  assert (Hs : succeeds (GetPrimitiveRoot 8)) by (vm_compute; reflexivity).
  assert (Hgt : 1 < 8) by lia.
  assert (Hn : 0 <= 6 < 8) by lia.
  split; [exact Hs |]. split; [exact Hgt |]. split; [exact Hn |].
  exact (nth_root_primitive_iff_odd 8 6 Hs Hgt Hn).
Defined.
